(** * Radar backscatter models of CloudModel.ipynb

    A shallow embedding of the four functions of the notebook
    ([bare_soil_model], [dB2lin], [lin2dB], [cloud_model]), of its grid of
    incidence angles and of the two [update] callbacks that redraw the
    plots, together with the part of NumPy they rest on, and the properties
    of the specification that concern them.

    Numbers.  The notebook computes with NumPy [float64] values.  They are
    modelled by [xreal]: a real number, or one of the three special values
    of IEEE 754 arithmetic (+inf, -inf, NaN).  Arithmetic on finite values
    is exact (no rounding, no overflow, one unsigned zero); the special
    values follow the IEEE 754 rules NumPy applies, so that [log10 0] is
    -inf, the logarithm of a negative number is NaN and a negative base
    raised to a fractional power is NaN.

    Shapes.  Every function of the notebook accepts a scalar or a
    one-dimensional array for each argument; [value] has both, and
    [broadcast] is NumPy's broadcasting rule for one-dimensional operands,
    which fails ([None], NumPy's ValueError) on two arrays of different
    lengths neither of which has length one. *)

From Stdlib Require Import Reals Lra.
From stdpp Require Import gmap strings list.

Local Open Scope R_scope.

(** ** Extended reals: the values of a float64, rounding apart *)

Inductive xreal : Type :=
  | NaN
  | NInf
  | PInf
  | Fin (r : R).

#[global] Instance R_eq_dec : EqDecision R := Req_dec_T.
#[global] Instance Rlt_rel_dec : RelDecision Rlt := Rlt_dec.
#[global] Instance Rle_rel_dec : RelDecision Rle := Rle_dec.

#[global] Instance xreal_eq_dec : EqDecision xreal.
Proof. solve_decision. Defined.

(** The infinity that has the sign of [r] times [s]; NaN when [r] is zero
    (the product of zero and an infinity). *)
Definition inf_of_sign (s : xreal) (r : R) : xreal :=
  if decide (0 < r) then s
  else if decide (r < 0) then
    match s with PInf => NInf | NInf => PInf | _ => NaN end
  else NaN.

Definition xopp (a : xreal) : xreal :=
  match a with
  | NaN => NaN
  | NInf => PInf
  | PInf => NInf
  | Fin x => Fin (- x)
  end.

Definition xadd (a b : xreal) : xreal :=
  match a, b with
  | NaN, _ | _, NaN => NaN
  | PInf, NInf | NInf, PInf => NaN
  | PInf, _ | _, PInf => PInf
  | NInf, _ | _, NInf => NInf
  | Fin x, Fin y => Fin (x + y)
  end.

Definition xsub (a b : xreal) : xreal := xadd a (xopp b).

Definition xmul (a b : xreal) : xreal :=
  match a, b with
  | NaN, _ | _, NaN => NaN
  | Fin x, Fin y => Fin (x * y)
  | Fin x, PInf | PInf, Fin x => inf_of_sign PInf x
  | Fin x, NInf | NInf, Fin x => inf_of_sign NInf x
  | PInf, PInf | NInf, NInf => PInf
  | PInf, NInf | NInf, PInf => NInf
  end.

(** Division; a zero divisor counts as +0, so that [x / 0] is the infinity
    of the sign of [x] and [0 / 0] is NaN. *)
Definition xdiv (a b : xreal) : xreal :=
  match a, b with
  | NaN, _ | _, NaN => NaN
  | (PInf | NInf), (PInf | NInf) => NaN
  | Fin _, (PInf | NInf) => Fin 0
  | PInf, Fin y => if decide (y < 0) then NInf else PInf
  | NInf, Fin y => if decide (y < 0) then PInf else NInf
  | Fin x, Fin y => if decide (y = 0) then inf_of_sign PInf x else Fin (x / y)
  end.

Definition xcos (a : xreal) : xreal :=
  match a with
  | Fin x => Fin (cos x)
  | _ => NaN
  end.

Definition xexp (a : xreal) : xreal :=
  match a with
  | NaN => NaN
  | NInf => Fin 0
  | PInf => PInf
  | Fin x => Fin (exp x)
  end.

Definition xlog10 (a : xreal) : xreal :=
  match a with
  | NaN | NInf => NaN
  | PInf => PInf
  | Fin x =>
      if decide (0 < x) then Fin (ln x / ln 10)
      else if decide (x = 0) then NInf
      else NaN
  end.

(** [y] is a whole number. *)
Definition is_integer (y : R) : Prop := IZR (Int_part y) = y.

#[global] Instance is_integer_dec y : Decision (is_integer y).
Proof. unfold is_integer. apply _. Defined.

(** The power function of IEEE 754 (C's [pow], which NumPy calls): anything
    to the power zero is one, one to any power is one, a negative finite
    base needs a whole exponent. *)
Definition xpow (a b : xreal) : xreal :=
  if decide (b = Fin 0) then Fin 1
  else if decide (a = Fin 1) then Fin 1
  else
    match a, b with
    | NaN, _ | _, NaN => NaN
    | Fin x, Fin y =>
        if decide (0 < x) then Fin (Rpower x y)
        else if decide (x = 0) then (if decide (0 < y) then Fin 0 else PInf)
        else if decide (is_integer y) then Fin (powerRZ x (Int_part y))
        else NaN
    | Fin x, PInf =>
        if decide (Rabs x < 1) then Fin 0
        else if decide (Rabs x = 1) then Fin 1
        else PInf
    | Fin x, NInf =>
        if decide (Rabs x < 1) then PInf
        else if decide (Rabs x = 1) then Fin 1
        else Fin 0
    | PInf, Fin y => if decide (0 < y) then PInf else Fin 0
    | NInf, Fin y =>
        if decide (0 < y) then
          (if decide (is_integer y) then
             (if Z.odd (Int_part y) then NInf else PInf)
           else PInf)
        else Fin 0
    | (PInf | NInf), PInf => PInf
    | (PInf | NInf), NInf => Fin 0
    end.

(** The comparisons [<=] and [<] of two floats: false as soon as one side
    is NaN. *)
Definition xle (a b : xreal) : Prop :=
  match a, b with
  | NaN, _ | _, NaN => False
  | NInf, _ | _, PInf => True
  | Fin x, Fin y => x <= y
  | PInf, _ | _, NInf => False
  end.

Definition xlt (a b : xreal) : Prop :=
  match a, b with
  | NaN, _ | _, NaN => False
  | NInf, NInf | PInf, PInf => False
  | NInf, _ | _, PInf => True
  | Fin x, Fin y => x < y
  | PInf, _ | _, NInf => False
  end.

#[global] Instance xle_dec : RelDecision xle.
Proof. intros [| | |x] [| | |y]; simpl; apply _. Defined.

#[global] Instance xlt_dec : RelDecision xlt.
Proof. intros [| | |x] [| | |y]; simpl; apply _. Defined.

(** ** NumPy values and broadcasting *)

Inductive value : Type :=
  | Scalar (x : xreal)
  | Array (xs : list xreal).

(** A universal function of one argument applies elementwise. *)
Definition ufunc (f : xreal → xreal) (v : value) : value :=
  match v with
  | Scalar x => Scalar (f x)
  | Array xs => Array (f <$> xs)
  end.

(** A binary operation broadcasts a scalar, or an array of length one,
    against the other operand; two arrays of other lengths must agree. *)
Definition broadcast (f : xreal → xreal → xreal) (u v : value) : option value :=
  match u, v with
  | Scalar x, Scalar y => Some (Scalar (f x y))
  | Scalar x, Array ys => Some (Array (f x <$> ys))
  | Array xs, Scalar y => Some (Array ((λ x, f x y) <$> xs))
  | Array xs, Array ys =>
      if decide (length xs = length ys) then Some (Array (zip_with f xs ys))
      else
        match xs, ys with
        | [x], _ => Some (Array (f x <$> ys))
        | _, [y] => Some (Array ((λ x, f x y) <$> xs))
        | _, _ => None
        end
  end.

(** An expression either has a value or has raised. *)
Abbreviation np := (option value).

Definition pure (v : value) : np := Some v.
Coercion Fin : R >-> xreal.
Coercion Scalar : xreal >-> value.
Coercion pure : value >-> option.

Definition np_binop (f : xreal → xreal → xreal) (a b : np) : np :=
  u ← a; v ← b; broadcast f u v.

Definition np_unop (f : xreal → xreal) (a : np) : np := ufunc f <$> a.

Definition np_add : np → np → np := np_binop xadd.
Definition np_sub : np → np → np := np_binop xsub.
Definition np_mul : np → np → np := np_binop xmul.
Definition np_div : np → np → np := np_binop xdiv.
Definition np_power : np → np → np := np_binop xpow.
Definition np_cos : np → np := np_unop xcos.
Definition np_exp : np → np := np_unop xexp.
Definition np_log10 : np → np := np_unop xlog10.

(** [np.deg2rad], which the notebook applies to its angles. *)
Definition np_deg2rad : np → np := np_unop (λ a, xmul a (Fin (PI / 180))).

Declare Scope np_scope.
Delimit Scope np_scope with np.
Arguments np_add (_ _)%_np.
Arguments np_sub (_ _)%_np.
Arguments np_mul (_ _)%_np.
Arguments np_div (_ _)%_np.
Arguments np_power (_ _)%_np.
Arguments np_cos _%_np.
Arguments np_exp _%_np.
Arguments np_log10 _%_np.
Infix "+" := np_add : np_scope.
Infix "-" := np_sub : np_scope.
Infix "*" := np_mul : np_scope.
Infix "/" := np_div : np_scope.
Notation "a ** b" := (np_power a b) (at level 30, right associativity) : np_scope.

(** A statement [x = e] of a function body: the rest of the body runs with
    the value of [e], unless [e] has raised. *)
Notation "x ⇐ e ; k" := (mbind (M := option) (A := value) (λ x, k) e)
  (at level 20, e at level 100, k at level 200, only parsing).

(** ** The notebook's functions *)

Definition bare_soil_model (theta mv : value) : np :=
  let C1 : np := -29.2 in
  let C2 : np := 27.2 in
  let C3 : np := 2.8 in
  let D : np := 0.28 in
  C_theta ⇐ (C1 + C2 * np_cos theta ** C3)%np;
  (C_theta + D * mv)%np.

Definition dB2lin (x : value) : np :=
  np_power 10 (x / 10)%np.

Definition lin2dB (x : value) : np :=
  (10 * np_log10 x)%np.

Definition cloud_model (theta smc alpha tau : value) : option (gmap string value) :=
  y2 ⇐ np_exp (-2 * tau / np_cos theta)%np;
  sigma0_soil_dB ⇐ bare_soil_model theta smc;
  sigma0_soil_linear ⇐ dB2lin sigma0_soil_dB;
  sigma0_can ⇐ (((3 * alpha * np_cos theta) / 4 * (1 - y2))
                + (y2 * sigma0_soil_linear))%np;
  Canopy ⇐ lin2dB sigma0_can;
  Volume ⇐ ((3 * alpha * np_cos theta) / 4 * (1 - y2))%np ≫= lin2dB;
  Soil ⇐ (y2 * sigma0_soil_linear)%np ≫= lin2dB;
  Some (<["Canopy" := Canopy]> (<["Volume" := Volume]> (<["Soil" := Soil]> ∅))).

(** ** The angle grid and the plot callbacks of the notebook *)

(** [np.linspace(start, stop, num)] with the default [endpoint=True]:
    [num] samples [i * step + start] with [step = (stop - start) / (num - 1)];
    with a single sample there is no step and the sample is [start].  (NumPy
    then stores [stop] in the last place; in exact arithmetic the last
    sample is [stop] already, see [np_linspace_ends].) *)
Definition np_linspace (start stop : R) (num : nat) : value :=
  let div := (num - 1)%nat in
  let delta := stop - start in
  Array ((λ i : nat,
            if decide (0 < div)%nat
            then Fin (INR i * (delta / INR div) + start)
            else Fin (INR i * delta + start)) <$> seq 0 num).

(** The incidence angles, in degrees and in radians. *)
Definition thetas : value := np_linspace 20 75 100.

Definition thetas_rad : np := np_deg2rad thetas.

(** A line of a Matplotlib plot, as far as the notebook uses it: the data
    [ax.plot(x, y)] puts in it and [set_ydata] replaces. *)
Record Line2D : Type := { xdata : value; ydata : value }.


Definition set_ydata (y : value) (line : Line2D) : Line2D :=
  {| xdata := xdata line; ydata := y |}.

(** [update(smc)] of the bare-soil plot, as a function of the line it
    changes. *)
Definition update_bare_soil (line : Line2D) (smc : value) : option Line2D :=
  theta ⇐ thetas_rad;
  sigma0_bare_soil ⇐ bare_soil_model theta smc;
  Some (set_ydata sigma0_bare_soil line).



(** A float that is neither NaN nor an infinity ([np.isfinite]). *)
Definition isfinite (a : xreal) : bool :=
  match a with
  | Fin _ => true
  | _ => false
  end.

(** ** One element at a time

    What the four functions compute for one angle and scalar parameters,
    written with the operations on [xreal].  These are not functions of the
    notebook: [bare_soil_model_scalar], [cloud_model_scalar] and
    [cloud_model_array] below prove that the notebook's functions compute
    them, on a scalar and on each element of an array. *)

Definition bare_soil_elem (theta mv : xreal) : xreal :=
  xadd (xadd (-29.2) (xmul 27.2 (xpow (xcos theta) 2.8))) (xmul 0.28 mv).

Definition dB2lin_elem (x : xreal) : xreal := xpow 10 (xdiv x 10).

Definition lin2dB_elem (x : xreal) : xreal := xmul 10 (xlog10 x).

Definition y2_elem (theta tau : xreal) : xreal :=
  xexp (xdiv (xmul (-2) tau) (xcos theta)).

Definition volume_elem (theta alpha tau : xreal) : xreal :=
  xmul (xdiv (xmul (xmul 3 alpha) (xcos theta)) 4)
       (xsub 1 (y2_elem theta tau)).

Definition soil_elem (theta smc tau : xreal) : xreal :=
  xmul (y2_elem theta tau) (dB2lin_elem (bare_soil_elem theta smc)).

Definition canopy_elem (theta smc alpha tau : xreal) : xreal :=
  xadd (volume_elem theta alpha tau) (soil_elem theta smc tau).

(** The dictionary [cloud_model] returns. *)
Definition terms (canopy volume soil : value) : gmap string value :=
  <["Canopy" := canopy]> (<["Volume" := volume]> (<["Soil" := soil]> ∅)).

(** ** The linear-domain quantities, in the words of the specification

    Step 1 and step 3 of the specification of the cloud model, over the
    real numbers; [soil_linear] is the bare-soil backscatter converted to
    the linear domain (step 2). *)
Module Spec.

Definition gamma_squared (theta tau : R) : R := exp (-2 * tau / cos theta).

Definition Volume_linear (theta alpha tau : R) : R :=
  (3 * alpha * cos theta / 4) * (1 - gamma_squared theta tau).

Definition Soil_linear (theta tau soil_linear : R) : R :=
  gamma_squared theta tau * soil_linear.

Definition Canopy_linear (theta alpha tau soil_linear : R) : R :=
  Volume_linear theta alpha tau + Soil_linear theta tau soil_linear.

End Spec.

(** ** Broadcasting over the elements of one array *)

Section broadcasting.
Context {A : Type} (f : xreal → xreal → xreal) (u : xreal → xreal).

Lemma np_binop_scalars a b :
  np_binop f (Some (Scalar a)) (Some (Scalar b)) = Some (Scalar (f a b)).
Proof. reflexivity. Qed.

Lemma np_binop_scalar_array a (g : A → xreal) (l : list A) :
  np_binop f (Some (Scalar a)) (Some (Array (g <$> l)))
  = Some (Array ((λ x, f a (g x)) <$> l)).
Proof. simpl. by rewrite <- list_fmap_compose. Qed.

Lemma np_binop_array_scalar (g : A → xreal) (l : list A) b :
  np_binop f (Some (Array (g <$> l))) (Some (Scalar b))
  = Some (Array ((λ x, f (g x) b) <$> l)).
Proof. simpl. by rewrite <- list_fmap_compose. Qed.

Lemma zip_with_fmap_same (g h : A → xreal) (l : list A) :
  zip_with f (g <$> l) (h <$> l) = (λ x, f (g x) (h x)) <$> l.
Proof. induction l as [|x l IH]; csimpl; [done | by rewrite IH]. Qed.

Lemma np_binop_arrays (g h : A → xreal) (l : list A) :
  np_binop f (Some (Array (g <$> l))) (Some (Array (h <$> l)))
  = Some (Array ((λ x, f (g x) (h x)) <$> l)).
Proof.
  unfold np_binop, broadcast. cbn [mbind option_bind].
  rewrite decide_True by (by rewrite !length_fmap).
  by rewrite zip_with_fmap_same.
Qed.

Lemma np_unop_scalar a : np_unop u (Some (Scalar a)) = Some (Scalar (u a)).
Proof. reflexivity. Qed.

Lemma np_unop_array (g : A → xreal) (l : list A) :
  np_unop u (Some (Array (g <$> l))) = Some (Array ((λ x, u (g x)) <$> l)).
Proof. simpl. by rewrite <- list_fmap_compose. Qed.
End broadcasting.

Lemma bare_soil_model_scalar (theta mv : xreal) :
  bare_soil_model theta mv = Some (Scalar (bare_soil_elem theta mv)).
Proof. reflexivity. Qed.

Lemma dB2lin_scalar (x : xreal) : dB2lin x = Some (Scalar (dB2lin_elem x)).
Proof. reflexivity. Qed.

Lemma lin2dB_scalar (x : xreal) : lin2dB x = Some (Scalar (lin2dB_elem x)).
Proof. reflexivity. Qed.

Lemma cloud_model_scalar (theta smc alpha tau : xreal) :
  cloud_model theta smc alpha tau
  = Some (terms (lin2dB_elem (canopy_elem theta smc alpha tau))
                (lin2dB_elem (volume_elem theta alpha tau))
                (lin2dB_elem (soil_elem theta smc tau))).
Proof. reflexivity. Qed.

Ltac elementwise :=
  repeat
    (cbn [mbind option_bind];
     first
       [ rewrite np_binop_arrays
       | rewrite np_binop_scalar_array
       | rewrite np_binop_array_scalar
       | rewrite np_unop_array
       | rewrite np_binop_scalars
       | rewrite np_unop_scalar ]);
  cbn [mbind option_bind].

Lemma bare_soil_model_fmap {A} (g : A → xreal) (l : list A) (mv : xreal) :
  bare_soil_model (Array (g <$> l)) mv
  = Some (Array ((λ x, bare_soil_elem (g x) mv) <$> l)).
Proof.
  unfold bare_soil_model, np_add, np_mul, np_power, np_cos, pure.
  elementwise. reflexivity.
Qed.

Lemma dB2lin_array {A} (g : A → xreal) (l : list A) :
  dB2lin (Array (g <$> l)) = Some (Array ((λ x, dB2lin_elem (g x)) <$> l)).
Proof.
  unfold dB2lin, np_div, np_power, pure. elementwise. reflexivity.
Qed.

Lemma lin2dB_array {A} (g : A → xreal) (l : list A) :
  lin2dB (Array (g <$> l)) = Some (Array ((λ x, lin2dB_elem (g x)) <$> l)).
Proof.
  unfold lin2dB, np_mul, np_log10, pure. elementwise. reflexivity.
Qed.

Lemma cloud_model_fmap {A} (g : A → xreal) (l : list A)
    (smc alpha tau : xreal) :
  cloud_model (Array (g <$> l)) smc alpha tau
  = Some (terms
      (Array ((λ x, lin2dB_elem (canopy_elem (g x) smc alpha tau)) <$> l))
      (Array ((λ x, lin2dB_elem (volume_elem (g x) alpha tau)) <$> l))
      (Array ((λ x, lin2dB_elem (soil_elem (g x) smc tau)) <$> l))).
Proof.
  unfold cloud_model. rewrite bare_soil_model_fmap.
  unfold np_add, np_sub, np_mul, np_div, np_exp, np_cos, pure.
  elementwise. rewrite dB2lin_array. elementwise.
  repeat (rewrite lin2dB_array; cbn [mbind option_bind]).
  reflexivity.
Qed.

Lemma bare_soil_model_array (thetas : list xreal) (mv : xreal) :
  bare_soil_model (Array thetas) mv
  = Some (Array ((λ theta, bare_soil_elem theta mv) <$> thetas)).
Proof.
  rewrite <- (list_fmap_id thetas) at 1. apply bare_soil_model_fmap.
Qed.

Lemma cloud_model_array (thetas : list xreal) (smc alpha tau : xreal) :
  cloud_model (Array thetas) smc alpha tau
  = Some (terms
      (Array ((λ theta, lin2dB_elem (canopy_elem theta smc alpha tau)) <$> thetas))
      (Array ((λ theta, lin2dB_elem (volume_elem theta alpha tau)) <$> thetas))
      (Array ((λ theta, lin2dB_elem (soil_elem theta smc tau)) <$> thetas))).
Proof.
  rewrite <- (list_fmap_id thetas) at 1. apply cloud_model_fmap.
Qed.

(** ** Arithmetic on finite values *)

Lemma ln_10_pos : 0 < ln 10.
Proof. rewrite <- ln_1. apply ln_increasing; lra. Qed.

Lemma xdiv_fin (x y : R) : y ≠ 0 → xdiv (Fin x) (Fin y) = Fin (x / y).
Proof. intros Hy. unfold xdiv. by rewrite decide_False. Qed.

Lemma xpow_pos (x y : R) : 0 < x → xpow (Fin x) (Fin y) = Fin (Rpower x y).
Proof.
  intros Hx. unfold xpow.
  destruct (decide (Fin y = Fin 0)) as [Hy|_].
  { inversion Hy; subst. by rewrite Rpower_O. }
  destruct (decide (Fin x = Fin 1)) as [H1|_].
  { inversion H1; subst. unfold Rpower. by rewrite ln_1, Rmult_0_r, exp_0. }
  by rewrite decide_True.
Qed.

Lemma not_integer_2_8 : ¬ is_integer 2.8.
Proof.
  unfold is_integer. intros H.
  assert (H5 : IZR (5 * Int_part 2.8) = IZR 14) by (rewrite mult_IZR; lra).
  apply eq_IZR in H5. lia.
Qed.

Lemma xpow_neg_2_8 (x : R) : x < 0 → xpow (Fin x) (Fin 2.8) = NaN.
Proof.
  intros Hx. unfold xpow.
  rewrite decide_False by (intros H; inversion H; lra).
  rewrite decide_False by (intros H; inversion H; lra).
  rewrite decide_False by lra. rewrite decide_False by lra.
  rewrite decide_False by apply not_integer_2_8. done.
Qed.

Lemma xpow_0_2_8 : xpow (Fin 0) (Fin 2.8) = Fin 0.
Proof.
  unfold xpow.
  rewrite decide_False by (intros H; inversion H; lra).
  rewrite decide_False by (intros H; inversion H; lra).
  rewrite decide_False by lra. rewrite decide_True by done.
  by rewrite decide_True by lra.
Qed.

Lemma xlog10_pos (x : R) : 0 < x → xlog10 (Fin x) = Fin (ln x / ln 10).
Proof. intros Hx. unfold xlog10. by rewrite decide_True. Qed.

Lemma xlog10_0 : xlog10 (Fin 0) = NInf.
Proof.
  unfold xlog10. rewrite decide_False by lra. by rewrite decide_True.
Qed.


Lemma lin2dB_elem_pos (x : R) :
  0 < x → lin2dB_elem (Fin x) = Fin (10 * (ln x / ln 10)).
Proof. intros Hx. unfold lin2dB_elem. by rewrite xlog10_pos. Qed.

Lemma lin2dB_elem_0 : lin2dB_elem (Fin 0) = NInf.
Proof.
  unfold lin2dB_elem. rewrite xlog10_0. unfold xmul, inf_of_sign.
  by rewrite decide_True by lra.
Qed.


Lemma dB2lin_elem_fin (x : R) : dB2lin_elem (Fin x) = Fin (Rpower 10 (x / 10)).
Proof.
  unfold dB2lin_elem. rewrite xdiv_fin by lra. apply xpow_pos. lra.
Qed.

Lemma Rpower_pos (x y : R) : 0 < Rpower x y.
Proof. apply exp_pos. Qed.


(** The bare-soil model at a finite angle, by the sign of the cosine. *)
Lemma bare_soil_elem_pos (theta mv : R) :
  0 < cos theta →
  bare_soil_elem (Fin theta) (Fin mv)
  = Fin (-29.2 + 27.2 * Rpower (cos theta) 2.8 + 0.28 * mv).
Proof.
  intros Hc. unfold bare_soil_elem, xcos. by rewrite xpow_pos.
Qed.

Lemma bare_soil_elem_zero (theta mv : R) :
  cos theta = 0 →
  bare_soil_elem (Fin theta) (Fin mv) = Fin (-29.2 + 27.2 * 0 + 0.28 * mv).
Proof.
  intros Hc. unfold bare_soil_elem, xcos. by rewrite Hc, xpow_0_2_8.
Qed.

Lemma bare_soil_elem_neg (theta mv : R) :
  cos theta < 0 → bare_soil_elem (Fin theta) (Fin mv) = NaN.
Proof.
  intros Hc. unfold bare_soil_elem, xcos. by rewrite xpow_neg_2_8.
Qed.

Lemma y2_elem_fin (theta tau : R) :
  cos theta ≠ 0 →
  y2_elem (Fin theta) (Fin tau) = Fin (exp (-2 * tau / cos theta)).
Proof.
  intros Hc. unfold y2_elem, xcos. cbn [xmul]. by rewrite xdiv_fin.
Qed.

Lemma volume_elem_fin (theta alpha tau : R) :
  cos theta ≠ 0 →
  volume_elem (Fin theta) (Fin alpha) (Fin tau)
  = Fin (3 * alpha * cos theta / 4 * (1 - exp (-2 * tau / cos theta))).
Proof.
  intros Hc. unfold volume_elem. rewrite y2_elem_fin by done.
  unfold xcos. cbn [xmul]. rewrite xdiv_fin by lra. cbn.
  f_equal.
Qed.

Lemma soil_elem_fin (theta smc tau : R) :
  0 < cos theta →
  soil_elem (Fin theta) (Fin smc) (Fin tau)
  = Fin (exp (-2 * tau / cos theta)
         * Rpower 10 ((-29.2 + 27.2 * Rpower (cos theta) 2.8 + 0.28 * smc) / 10)).
Proof.
  intros Hc. unfold soil_elem. rewrite y2_elem_fin by lra.
  by rewrite bare_soil_elem_pos, dB2lin_elem_fin.
Qed.

(** ** A few evaluations *)

Example broadcast_mismatch :
  (pure (Array [Fin 1; Fin 2]) + pure (Array [Fin 1; Fin 2; Fin 3]))%np = None.
Proof. reflexivity. Qed.

Example broadcast_length_one :
  (pure (Array [Fin 1]) + pure (Array [Fin 1; Fin 2]))%np
  = Some (Array [xadd 1 1; xadd 1 2]).
Proof. reflexivity. Qed.

Example cloud_model_mismatch :
  cloud_model (Array [Fin 0; Fin 1]) (Array [Fin 1; Fin 2; Fin 3]) 0.1 0.1 = None.
Proof. reflexivity. Qed.

Example bare_soil_model_nadir : bare_soil_model 0 1 = Some (Scalar (Fin (-1.72))).
Proof.
  rewrite bare_soil_model_scalar, bare_soil_elem_pos by (rewrite cos_0; lra).
  rewrite cos_0. unfold Rpower. rewrite ln_1, Rmult_0_r, exp_0.
  do 3 f_equal. lra.
Qed.

Example bare_soil_model_grazing :
  bare_soil_model (PI / 2) 0 = Some (Scalar (Fin (-29.2))).
Proof.
  rewrite bare_soil_model_scalar, bare_soil_elem_zero by apply cos_PI2.
  do 3 f_equal. lra.
Qed.

Example bare_soil_model_beyond : bare_soil_model PI 1 = Some (Scalar NaN).
Proof.
  rewrite bare_soil_model_scalar, bare_soil_elem_neg; [done|].
  rewrite cos_PI. lra.
Qed.

(** ** The returned dictionary *)

Lemma terms_Canopy (c v s : value) : terms c v s !! "Canopy" = Some c.
Proof. unfold terms. by simplify_map_eq. Qed.

Lemma terms_Volume (c v s : value) : terms c v s !! "Volume" = Some v.
Proof. unfold terms. by simplify_map_eq. Qed.

Lemma terms_Soil (c v s : value) : terms c v s !! "Soil" = Some s.
Proof. unfold terms. by simplify_map_eq. Qed.

Lemma terms_dom (c v s : value) :
  dom (terms c v s) = ({["Canopy"; "Volume"; "Soil"]} : gset string).
Proof. unfold terms. rewrite !dom_insert_L, dom_empty_L. set_solver. Qed.

Lemma terms_key (c v s : value) (key : string) :
  key ∈ dom (terms c v s) → key = "Canopy" ∨ key = "Volume" ∨ key = "Soil".
Proof.
  rewrite terms_dom, !elem_of_union, !elem_of_singleton. tauto.
Qed.

(** C1.  At an angle whose cosine is positive, the three entries of the
    dictionary [cloud_model] returns are [lin2dB] of the three linear-domain
    quantities of the specification, the soil signal being [dB2lin] of
    [bare_soil_model]. *)
Theorem cloud_model_linear_terms (theta smc alpha tau : R) :
  0 < cos theta →
  ∃ (soil_linear : R) (m : gmap string value),
    bare_soil_model theta smc ≫= dB2lin = Some (Scalar (Fin soil_linear)) ∧
    cloud_model theta smc alpha tau = Some m ∧
    m !! "Volume" = lin2dB (Spec.Volume_linear theta alpha tau) ∧
    m !! "Soil" = lin2dB (Spec.Soil_linear theta tau soil_linear) ∧
    m !! "Canopy" = lin2dB (Spec.Canopy_linear theta alpha tau soil_linear).
Proof.
  intros Hc.
  eexists _, _. rewrite bare_soil_model_scalar, cloud_model_scalar.
  cbn [mbind option_bind]. rewrite dB2lin_scalar.
  rewrite terms_Canopy, terms_Volume, terms_Soil, !lin2dB_scalar.
  unfold canopy_elem. rewrite soil_elem_fin, volume_elem_fin by lra.
  rewrite bare_soil_elem_pos, dB2lin_elem_fin by done.
  repeat split; reflexivity.
Qed.

Lemma cloud_model_linear_terms_witness :
  ∃ (soil_linear : R) (m : gmap string value),
    bare_soil_model 0 1 ≫= dB2lin = Some (Scalar (Fin soil_linear)) ∧
    cloud_model 0 1 0.1 0.1 = Some m ∧
    m !! "Volume" = lin2dB (Spec.Volume_linear 0 0.1 0.1) ∧
    m !! "Soil" = lin2dB (Spec.Soil_linear 0 0.1 soil_linear) ∧
    m !! "Canopy" = lin2dB (Spec.Canopy_linear 0 0.1 0.1 soil_linear).
Proof.
  apply (cloud_model_linear_terms 0 1 0.1 0.1). rewrite cos_0. lra.
Defined.

Lemma cos_PI4_pos : 0 < cos (PI / 4).
Proof. apply cos_gt_0; pose proof PI_RGT_0; lra. Qed.

(** C2.  For every angle and every soil moisture [bare_soil_model] returns
    [C_theta + D * mv] with [C_theta = C1 + C2 * cos(theta)^C3] and the
    constants -29.2, 27.2, 2.8 and 0.28; where the cosine is positive this
    is the real number the formula denotes, and at 45 degrees with [mv = 1]
    it is [-29.2 + 27.2 * cos(pi/4)^2.8 + 0.28]. *)
Theorem bare_soil_model_formula (theta mv : R) :
  (let C_theta := xadd (-29.2) (xmul 27.2 (xpow (cos theta) 2.8)) in
   bare_soil_model theta mv = Some (Scalar (xadd C_theta (xmul 0.28 mv)))) ∧
  (0 < cos theta →
   bare_soil_model theta mv
   = Some (Scalar (Fin (-29.2 + 27.2 * Rpower (cos theta) 2.8 + 0.28 * mv)))) ∧
  (θ ⇐ np_deg2rad 45; bare_soil_model θ 1)
  = Some (Scalar (Fin (-29.2 + 27.2 * Rpower (cos (PI / 4)) 2.8 + 0.28))).
Proof.
  split; [reflexivity|]. split.
  - intros Hc. by rewrite bare_soil_model_scalar, bare_soil_elem_pos.
  - cbn [np_deg2rad np_unop pure fmap option_fmap option_map ufunc xmul
         mbind option_bind].
    rewrite bare_soil_model_scalar.
    replace (45 * (PI / 180)) with (PI / 4) by lra.
    rewrite bare_soil_elem_pos by apply cos_PI4_pos.
    do 3 f_equal. lra.
Qed.





(** C5.  On an array of N angles and scalar parameters [cloud_model]
    returns a dictionary whose keys are exactly "Canopy", "Volume" and
    "Soil"; each entry is an array of length N, and its element [i] is what
    [cloud_model] returns under the same key for the angle at index [i]
    alone. *)
Theorem cloud_model_shape (thetas : list xreal) (smc alpha tau : xreal) :
  ∃ m : gmap string value,
    cloud_model (Array thetas) smc alpha tau = Some m ∧
    dom m = ({["Canopy"; "Volume"; "Soil"]} : gset string) ∧
    ∀ key : string, key ∈ dom m →
      ∃ out : list xreal,
        m !! key = Some (Array out) ∧
        length out = length thetas ∧
        ∀ (i : nat) (theta : xreal), thetas !! i = Some theta →
          ∃ (mi : gmap string value) (x : xreal),
            cloud_model (Scalar theta) smc alpha tau = Some mi ∧
            mi !! key = Some (Scalar x) ∧
            out !! i = Some x.
Proof.
  eexists. split; [apply cloud_model_array|].
  split; [apply terms_dom|].
  intros key Hkey. apply terms_key in Hkey as [-> | [-> | ->]].
  - eexists. rewrite terms_Canopy. split; [reflexivity|].
    split; [apply length_fmap|]. intros i theta Hi.
    eexists _, _. rewrite cloud_model_scalar, terms_Canopy.
    split; [reflexivity|]. split; [reflexivity|].
    by rewrite list_lookup_fmap, Hi.
  - eexists. rewrite terms_Volume. split; [reflexivity|].
    split; [apply length_fmap|]. intros i theta Hi.
    eexists _, _. rewrite cloud_model_scalar, terms_Volume.
    split; [reflexivity|]. split; [reflexivity|].
    by rewrite list_lookup_fmap, Hi.
  - eexists. rewrite terms_Soil. split; [reflexivity|].
    split; [apply length_fmap|]. intros i theta Hi.
    eexists _, _. rewrite cloud_model_scalar, terms_Soil.
    split; [reflexivity|]. split; [reflexivity|].
    by rewrite list_lookup_fmap, Hi.
Qed.

(** C6, as stated, fails where the cosine is negative: at [theta = pi] the
    model returns NaN for every soil moisture, and NaN is not below or
    equal to NaN. *)
Lemma bare_soil_model_not_monotone_at_PI :
  bare_soil_model PI 0 = Some (Scalar NaN) ∧
  ¬ (∀ mv1 mv2 : R, mv1 <= mv2 →
      ∃ a b : xreal,
        bare_soil_model PI mv1 = Some (Scalar a) ∧
        bare_soil_model PI mv2 = Some (Scalar b) ∧
        xle a b).
Proof.
  assert (HPI : ∀ mv : R, bare_soil_model PI mv = Some (Scalar NaN)).
  { intros mv. rewrite bare_soil_model_scalar, bare_soil_elem_neg; [done|].
    rewrite cos_PI. lra. }
  split; [apply HPI|].
  intros H. destruct (H 0 0 (Rle_refl 0)) as (a & b & Ha & _ & Hle).
  rewrite HPI in Ha. by inversion Ha; subst.
Qed.

(** C6, amended.  At an angle whose cosine is not negative, the bare-soil
    backscatter does not decrease when the soil moisture grows. *)
Theorem bare_soil_model_monotone (theta mv1 mv2 : R) :
  0 <= cos theta →
  mv1 <= mv2 →
  ∃ a b : xreal,
    bare_soil_model theta mv1 = Some (Scalar a) ∧
    bare_soil_model theta mv2 = Some (Scalar b) ∧
    xle a b.
Proof.
  intros Hc Hmv. eexists _, _. rewrite !bare_soil_model_scalar.
  split; [reflexivity|]. split; [reflexivity|].
  destruct Hc as [Hc | Hc].
  - rewrite !bare_soil_elem_pos by done. simpl. lra.
  - rewrite !bare_soil_elem_zero by done. simpl. lra.
Qed.

Lemma bare_soil_model_monotone_witness :
  ∃ a b : xreal,
    bare_soil_model 0 0 = Some (Scalar a) ∧
    bare_soil_model 0 1 = Some (Scalar b) ∧
    xle a b.
Proof.
  apply (bare_soil_model_monotone 0 0 1).
  - rewrite cos_0. lra.
  - lra.
Defined.








(** [lin2dB] does not decrease on the non-negative numbers. *)
Lemma lin2dB_elem_mono (x y : R) :
  0 <= x → x <= y → 0 < y → xle (lin2dB_elem (Fin x)) (lin2dB_elem (Fin y)).
Proof.
  intros [Hx | <-] Hxy Hy.
  - rewrite !lin2dB_elem_pos by lra. simpl.
    pose proof ln_10_pos as H10.
    assert (ln x <= ln y).
    { destruct Hxy as [Hlt | ->]; [left; by apply ln_increasing | lra]. }
    apply Rmult_le_compat_l; [lra|].
    unfold Rdiv. apply Rmult_le_compat_r; [|done].
    left. by apply Rinv_0_lt_compat.
  - rewrite lin2dB_elem_0, lin2dB_elem_pos by done. done.
Qed.




(** Whatever the shapes of the arguments: when two calls that differ in
    [smc] alone both return, their volume entries agree, and likewise the
    soil entries of two calls that differ in [alpha] alone. *)
Ltac run_body H :=
  repeat
    match type of H with
    | mbind _ ?e = Some _ =>
        destruct e eqn:?; cbn [mbind option_bind] in H; [|done]
    end.

Lemma cloud_model_Volume_ignores_smc
    (theta smc smc' alpha tau : value) (m m' : gmap string value) :
  cloud_model theta smc alpha tau = Some m →
  cloud_model theta smc' alpha tau = Some m' →
  m !! "Volume" = m' !! "Volume".
Proof.
  unfold cloud_model. intros H H'. run_body H. run_body H'.
  simplify_eq. by simplify_map_eq.
Qed.

Lemma cloud_model_Soil_ignores_alpha
    (theta smc alpha alpha' tau : value) (m m' : gmap string value) :
  cloud_model theta smc alpha tau = Some m →
  cloud_model theta smc alpha' tau = Some m' →
  m !! "Soil" = m' !! "Soil".
Proof.
  unfold cloud_model. intros H H'. run_body H. run_body H'.
  simplify_eq. by simplify_map_eq.
Qed.

Lemma cloud_model_returns (theta : value) (smc alpha tau : xreal) :
  ∃ m : gmap string value,
    cloud_model theta smc alpha tau = Some m ∧
    is_Some (m !! "Canopy") ∧ is_Some (m !! "Volume") ∧ is_Some (m !! "Soil").
Proof.
  destruct theta as [theta | thetas]; eexists.
  - rewrite cloud_model_scalar, terms_Canopy, terms_Volume, terms_Soil. eauto.
  - rewrite cloud_model_array, terms_Canopy, terms_Volume, terms_Soil. eauto.
Qed.

(** C9.  For an angle or an array of angles and scalar parameters, the
    volume entry is the same in two calls that differ in [smc] alone, and
    the soil entry is the same in two calls that differ in [alpha] alone. *)
Theorem cloud_model_noninterference
    (theta : value) (smc smc' alpha alpha' tau : xreal) :
  ∃ m m_smc m_alpha : gmap string value,
    cloud_model theta smc alpha tau = Some m ∧
    cloud_model theta smc' alpha tau = Some m_smc ∧
    cloud_model theta smc alpha' tau = Some m_alpha ∧
    is_Some (m !! "Volume") ∧
    m !! "Volume" = m_smc !! "Volume" ∧
    is_Some (m !! "Soil") ∧
    m !! "Soil" = m_alpha !! "Soil".
Proof.
  destruct (cloud_model_returns theta smc alpha tau) as (m & Hm & _ & HV & HS).
  destruct (cloud_model_returns theta smc' alpha tau) as (m1 & Hm1 & _).
  destruct (cloud_model_returns theta smc alpha' tau) as (m2 & Hm2 & _).
  exists m, m1, m2. repeat split; try done.
  - exact (cloud_model_Volume_ignores_smc _ _ _ _ _ _ _ Hm Hm1).
  - exact (cloud_model_Soil_ignores_alpha _ _ _ _ _ _ _ Hm Hm2).
Qed.

(** ** Further properties of the unit conversions *)


Lemma dB2lin_elem_NaN : dB2lin_elem NaN = NaN.
Proof.
  unfold dB2lin_elem, xdiv, xpow. rewrite decide_False by done.
  by rewrite decide_False by (intros H; inversion H; lra).
Qed.








(** ** Further properties of the bare-soil model *)

Lemma Rpower_2_8_le (a b : R) :
  0 <= a <= b →
  (if decide (0 < a) then Rpower a 2.8 else 0)
  <= (if decide (0 < b) then Rpower b 2.8 else 0).
Proof.
  intros [Ha Hab]. repeat case_decide; try lra.
  - apply Rle_Rpower_l; lra.
  - left. apply Rpower_pos.
Qed.

Lemma bare_soil_elem_nonneg (theta mv : R) :
  0 <= cos theta →
  bare_soil_elem (Fin theta) (Fin mv)
  = Fin (-29.2
         + 27.2 * (if decide (0 < cos theta) then Rpower (cos theta) 2.8 else 0)
         + 0.28 * mv).
Proof.
  intros Hc. case_decide.
  - by apply bare_soil_elem_pos.
  - apply bare_soil_elem_zero. lra.
Qed.

(** X4.  Between nadir and grazing incidence the bare-soil backscatter
    falls as the angle grows, from [C1 + C2 + D * mv] at most down to
    [C1 + D * mv] at least. *)
Theorem bare_soil_model_angular_decrease (theta1 theta2 mv : R) :
  0 <= theta1 → theta1 <= theta2 → theta2 <= PI / 2 →
  ∃ s1 s2 : R,
    bare_soil_model theta1 mv = Some (Scalar (Fin s1)) ∧
    bare_soil_model theta2 mv = Some (Scalar (Fin s2)) ∧
    -29.2 + 0.28 * mv <= s2 ∧ s2 <= s1 ∧ s1 <= -2 + 0.28 * mv.
Proof.
  intros H1 H12 H2. pose proof PI_RGT_0 as HPI.
  assert (Hc2 : 0 <= cos theta2) by (apply cos_ge_0; lra).
  assert (Hc12 : cos theta2 <= cos theta1) by (apply cos_decr_1; lra).
  assert (Hc1 : cos theta1 <= 1) by apply COS_bound.
  eexists _, _. rewrite !bare_soil_model_scalar.
  rewrite !bare_soil_elem_nonneg by lra.
  split; [reflexivity|]. split; [reflexivity|].
  pose proof (Rpower_2_8_le (cos theta2) (cos theta1) (conj Hc2 Hc12)) as Hle.
  pose proof (Rpower_2_8_le 0 (cos theta2) (conj (Rle_refl 0) Hc2)) as Hlo.
  pose proof (Rpower_2_8_le (cos theta1) 1 (conj (Rle_trans _ _ _ Hc2 Hc12) Hc1))
    as Hhi.
  rewrite (decide_False (P := 0 < 0)) in Hlo by lra.
  rewrite (decide_True (P := 0 < 1)) in Hhi by lra.
  assert (Rpower 1 2.8 = 1) as E1.
  { unfold Rpower. by rewrite ln_1, Rmult_0_r, exp_0. }
  rewrite E1 in Hhi. lra.
Qed.

Lemma bare_soil_model_angular_decrease_witness :
  ∃ s1 s2 : R,
    bare_soil_model 0 1 = Some (Scalar (Fin s1)) ∧
    bare_soil_model (PI / 4) 1 = Some (Scalar (Fin s2)) ∧
    -29.2 + 0.28 * 1 <= s2 ∧ s2 <= s1 ∧ s1 <= -2 + 0.28 * 1.
Proof.
  apply (bare_soil_model_angular_decrease 0 (PI / 4) 1);
    pose proof PI_RGT_0; lra.
Defined.

(** X5.  Beyond 90 degrees, where the cosine is negative, the bare-soil
    model returns NaN whatever the soil moisture, and so do the canopy and
    soil entries of the cloud model. *)
Theorem models_NaN_beyond_grazing (theta smc alpha tau : R) :
  cos theta < 0 →
  bare_soil_model theta smc = Some (Scalar NaN) ∧
  ∃ m : gmap string value,
    cloud_model theta smc alpha tau = Some m ∧
    m !! "Canopy" = Some (Scalar NaN) ∧
    m !! "Soil" = Some (Scalar NaN).
Proof.
  intros Hc. rewrite bare_soil_model_scalar, bare_soil_elem_neg by done.
  split; [done|]. eexists. rewrite cloud_model_scalar.
  rewrite terms_Canopy, terms_Soil. split; [reflexivity|].
  assert (Hs : soil_elem (Fin theta) (Fin smc) (Fin tau) = NaN).
  { unfold soil_elem. rewrite y2_elem_fin by lra.
    by rewrite bare_soil_elem_neg, dB2lin_elem_NaN. }
  unfold canopy_elem. rewrite Hs, volume_elem_fin by lra. done.
Qed.

Lemma models_NaN_beyond_grazing_witness :
  bare_soil_model PI 1 = Some (Scalar NaN) ∧
  ∃ m : gmap string value,
    cloud_model PI 1 0.1 0.1 = Some m ∧
    m !! "Canopy" = Some (Scalar NaN) ∧
    m !! "Soil" = Some (Scalar NaN).
Proof.
  apply (models_NaN_beyond_grazing PI 1 0.1 0.1). rewrite cos_PI. lra.
Defined.

(** ** Arrays of soil moisture *)

Lemma broadcast_mismatch_None (f : xreal → xreal → xreal) (xs ys : list xreal) :
  length xs ≠ length ys → length xs ≠ 1%nat → length ys ≠ 1%nat →
  broadcast f (Array xs) (Array ys) = None.
Proof.
  intros Hne Hx Hy. unfold broadcast. rewrite decide_False by done.
  destruct xs as [|x [|x' xs]]; destruct ys as [|y [|y' ys]]; done.
Qed.

Lemma bare_soil_model_mismatch (thetas mvs : list xreal) :
  length thetas ≠ length mvs → length thetas ≠ 1%nat → length mvs ≠ 1%nat →
  bare_soil_model (Array thetas) (Array mvs) = None.
Proof.
  intros Hne Ht Hm. unfold bare_soil_model.
  rewrite <- (list_fmap_id thetas), <- (list_fmap_id mvs).
  unfold np_add, np_mul, np_power, np_cos, pure. elementwise.
  unfold np_binop. cbn [mbind option_bind].
  apply broadcast_mismatch_None; by rewrite !length_fmap.
Qed.

(** X6.  An array of angles and an array of soil moistures of another
    length, neither of length one, cannot be broadcast: [bare_soil_model]
    raises, and so does [cloud_model] whatever [alpha] and [tau] are. *)
Theorem models_raise_on_mismatch
    (thetas mvs : list xreal) (alpha tau : value) :
  length thetas ≠ length mvs → length thetas ≠ 1%nat → length mvs ≠ 1%nat →
  bare_soil_model (Array thetas) (Array mvs) = None ∧
  cloud_model (Array thetas) (Array mvs) alpha tau = None.
Proof.
  intros Hne Ht Hm.
  pose proof (bare_soil_model_mismatch thetas mvs Hne Ht Hm) as Hb.
  split; [done|]. unfold cloud_model.
  destruct (np_exp _) as [y2|]; [|done].
  cbn [mbind option_bind]. by rewrite Hb.
Qed.

Lemma models_raise_on_mismatch_witness :
  bare_soil_model (Array [Fin 0; Fin 1]) (Array [Fin 1; Fin 2; Fin 3]) = None ∧
  cloud_model (Array [Fin 0; Fin 1]) (Array [Fin 1; Fin 2; Fin 3]) 0.1 0.1 = None.
Proof.
  apply (models_raise_on_mismatch [Fin 0; Fin 1] [Fin 1; Fin 2; Fin 3] 0.1 0.1);
    simpl; lia.
Defined.

Lemma bare_soil_model_fmap2 {A} (g h : A → xreal) (l : list A) :
  bare_soil_model (Array (g <$> l)) (Array (h <$> l))
  = Some (Array ((λ x, bare_soil_elem (g x) (h x)) <$> l)).
Proof.
  unfold bare_soil_model, np_add, np_mul, np_power, np_cos, pure.
  elementwise. reflexivity.
Qed.

(** X7.  An array of angles and an array of soil moistures of the same
    length are paired index by index: element [i] of the result is what the
    model returns for angle [i] and soil moisture [i] alone. *)
Theorem bare_soil_model_pairs (thetas mvs : list xreal) :
  length thetas = length mvs →
  ∃ out : list xreal,
    bare_soil_model (Array thetas) (Array mvs) = Some (Array out) ∧
    length out = length thetas ∧
    ∀ (i : nat) (theta mv : xreal),
      thetas !! i = Some theta → mvs !! i = Some mv →
      ∃ x : xreal,
        bare_soil_model (Scalar theta) (Scalar mv) = Some (Scalar x) ∧
        out !! i = Some x.
Proof.
  intros Hlen. exists (zip_with bare_soil_elem thetas mvs).
  split; [|split].
  - pose proof (bare_soil_model_fmap2 fst snd (zip thetas mvs)) as H.
    rewrite fst_zip, snd_zip in H by lia. rewrite H.
    do 2 f_equal. rewrite (zip_with_zip bare_soil_elem). apply list_fmap_ext.
    by intros ? [??] _.
  - rewrite length_zip_with. lia.
  - intros i theta mv Hi Hj. eexists.
    split; [apply bare_soil_model_scalar|].
    rewrite lookup_zip_with, Hi. cbn. by rewrite Hj.
Qed.

Lemma bare_soil_model_pairs_witness :
  ∃ out : list xreal,
    bare_soil_model (Array [Fin 0; Fin 1]) (Array [Fin 1; Fin 2])
    = Some (Array out) ∧
    length out = length [Fin 0; Fin 1] ∧
    ∀ (i : nat) (theta mv : xreal),
      [Fin 0; Fin 1] !! i = Some theta → [Fin 1; Fin 2] !! i = Some mv →
      ∃ x : xreal,
        bare_soil_model (Scalar theta) (Scalar mv) = Some (Scalar x) ∧
        out !! i = Some x.
Proof. by apply (bare_soil_model_pairs [Fin 0; Fin 1] [Fin 1; Fin 2]). Defined.

(** ** Further properties of the cloud model *)













(** ** The angle grid and the plot callbacks *)

Lemma np_linspace_steps (start stop : R) (num : nat) :
  (2 <= num)%nat →
  np_linspace start stop num
  = Array ((λ i : nat,
              Fin (INR i * ((stop - start) / INR (num - 1)) + start))
           <$> seq 0 num).
Proof.
  intros Hn. unfold np_linspace. f_equal. apply list_fmap_ext.
  intros _ i _. by rewrite decide_True by lia.
Qed.

Lemma np_linspace_ends (start stop : R) (num : nat) (xs : list xreal) :
  (2 <= num)%nat →
  np_linspace start stop num = Array xs →
  length xs = num ∧
  xs !! 0%nat = Some (Fin start) ∧
  xs !! (num - 1)%nat = Some (Fin stop).
Proof.
  intros Hn. rewrite np_linspace_steps by done. intros [= <-].
  rewrite length_fmap, length_seq, !list_lookup_fmap.
  rewrite !lookup_seq_lt by lia. cbn [fmap option_fmap option_map].
  split; [done|]. split.
  - do 2 f_equal. simpl. lra.
  - do 2 f_equal. cbn [Nat.add]. field. apply not_0_INR. lia.
Qed.

Lemma thetas_rad_angles :
  ∃ angles : list R,
    thetas_rad = Some (Array (Fin <$> angles)) ∧
    length angles = 100%nat ∧
    Forall (λ r, 0 < r < PI / 2) angles ∧
    angles !! 0%nat = Some (20 * (PI / 180)) ∧
    angles !! 99%nat = Some (75 * (PI / 180)).
Proof.
  exists ((λ i : nat, (INR i * ((75 - 20) / INR (100 - 1)) + 20) * (PI / 180))
          <$> seq 0 100).
  assert (H99 : INR (100 - 1) = 99).
  { rewrite INR_IZR_INZ. reflexivity. }
  split; [|split; [|split; [|split]]].
  - unfold thetas_rad, thetas, np_deg2rad. rewrite np_linspace_steps by lia.
    unfold pure. rewrite np_unop_array, <- list_fmap_compose. reflexivity.
  - by rewrite length_fmap, length_seq.
  - apply Forall_fmap, Forall_seq. intros i [_ Hi]. cbn [Nat.add] in Hi.
    rewrite H99. pose proof PI_RGT_0 as HPI.
    pose proof (pos_INR i) as H0.
    assert (Hi99 : INR i <= 99).
    { rewrite <- H99. apply le_INR. lia. }
    cbn beta. split; nra.
  - rewrite list_lookup_fmap. cbn. do 2 f_equal. lra.
  - rewrite list_lookup_fmap, lookup_seq_lt by lia.
    cbn [fmap option_fmap option_map Nat.add]. rewrite H99. f_equal.
    change (INR 99) with (INR (100 - 1)). rewrite H99. field.
Qed.

(** X13.  The notebook's grid has 100 incidence angles, from 20 to 75
    degrees; in radians every one of them lies strictly between 0 and
    [pi / 2], where the cosine is positive. *)
Theorem thetas_rad_in_range :
  ∃ angles : list R,
    thetas_rad = Some (Array (Fin <$> angles)) ∧
    length angles = 100%nat ∧
    angles !! 0%nat = Some (20 * (PI / 180)) ∧
    angles !! 99%nat = Some (75 * (PI / 180)) ∧
    Forall (λ r, 0 < r < PI / 2 ∧ 0 < cos r) angles.
Proof.
  destruct thetas_rad_angles as (angles & Heq & Hlen & Hrange & H0 & H99).
  exists angles. do 4 (split; [done|]).
  eapply Forall_impl; [exact Hrange|]. intros r Hr. split; [done|].
  apply cos_gt_0; lra.
Qed.


(** X14.  Whatever finite soil moisture the slider gives, [update] of the
    bare-soil plot returns: the line keeps its x data and receives 100 y
    values, one per angle of the grid, all of them finite. *)
Theorem update_bare_soil_finite (line : Line2D) (smc : R) :
  ∃ ys : list xreal,
    update_bare_soil line smc
    = Some {| xdata := xdata line; ydata := Array ys |} ∧
    length ys = 100%nat ∧
    Forall (λ y, isfinite y = true) ys.
Proof.
  destruct thetas_rad_angles as (angles & Heq & Hlen & Hrange & _).
  eexists. unfold update_bare_soil. rewrite Heq. cbn [mbind option_bind].
  rewrite bare_soil_model_fmap. cbn [mbind option_bind].
  split; [reflexivity|]. split; [by rewrite length_fmap|].
  apply Forall_fmap. eapply Forall_impl; [exact Hrange|].
  intros r Hr. cbn. rewrite bare_soil_elem_pos; [done|].
  apply cos_gt_0; lra.
Qed.



(** ** Order and saturation *)

Lemma lin2dB_elem_order (x y : R) :
  0 <= x → x <= y → xle (lin2dB_elem (Fin x)) (lin2dB_elem (Fin y)).
Proof.
  intros Hx Hxy. destruct (decide (0 < y)) as [Hy | Hy].
  - by apply lin2dB_elem_mono.
  - assert (x = 0) as -> by lra. assert (y = 0) as -> by lra.
    by rewrite lin2dB_elem_0.
Qed.

(** X16.  [lin2dB] keeps the order of linear powers that are not negative
    (zero goes to minus infinity, below every finite value). *)
Theorem lin2dB_monotone (x y : R) :
  0 <= x → x <= y →
  ∃ a b : xreal,
    lin2dB x = Some (Scalar a) ∧ lin2dB y = Some (Scalar b) ∧ xle a b.
Proof.
  intros Hx Hxy. eexists _, _. rewrite !lin2dB_scalar.
  split; [reflexivity|]. split; [reflexivity|].
  by apply lin2dB_elem_order.
Qed.

Lemma lin2dB_monotone_witness :
  ∃ a b : xreal,
    lin2dB 0 = Some (Scalar a) ∧ lin2dB 2 = Some (Scalar b) ∧ xle a b.
Proof. apply (lin2dB_monotone 0 2); lra. Defined.


